(** * Fluent Bit output-section builder of the telemetry manager

    Shallow embedding of [internal/fluentbit/config/builder/output.go]:
    the dispatcher [createOutputSection], the three section assemblers
    [generateCustomOutput], [generateHTTPOutput], [generateLokiOutput],
    the label formatter [concatenateLabels] and [resolveValue].

    Go strings are byte strings; they are modelled by [string] (a list of
    8-bit [ascii] characters), compared byte-wise as Go does. *)

From Stdlib Require Import List String Ascii Bool Arith NArith Lia.
From Stdlib Require Import Permutation Sorted RelationClasses.
Import ListNotations.
Local Open Scope string_scope.

(** ** Byte strings *)

Definition nl : string := String "010"%char EmptyString.
Definition dquote : string := String "034"%char EmptyString.

(** [strings.Join(elems, sep)]. *)
Fixpoint Join (elems : list string) (sep : string) : string :=
  match elems with
  | [] => EmptyString
  | [x] => x
  | x :: rest => x ++ sep ++ Join rest sep
  end.

(** ASCII white space, the bytes [strings.TrimSpace] removes. *)
Definition isSpace (c : ascii) : bool :=
  match c with
  | " "%char | "009"%char | "010"%char | "011"%char | "012"%char | "013"%char => true
  | _ => false
  end.

Fixpoint trimLeft (s : string) : string :=
  match s with
  | EmptyString => EmptyString
  | String c s' => if isSpace c then trimLeft s' else s
  end.

Fixpoint trimRight (s : string) : string :=
  match s with
  | EmptyString => EmptyString
  | String c s' =>
      match trimRight s' with
      | EmptyString => if isSpace c then EmptyString else String c EmptyString
      | r => String c r
      end
  end.

Definition TrimSpace (s : string) : string := trimRight (trimLeft s).

Definition isEmpty (s : string) : bool :=
  match s with EmptyString => true | _ => false end.

(** ASCII case folding, used by the case-insensitive key lookups. *)
Definition toLowerByte (c : ascii) : ascii :=
  let n := nat_of_ascii c in
  if ((65 <=? n) && (n <=? 90))%nat then ascii_of_nat (n + 32) else c.

Fixpoint ToLower (s : string) : string :=
  match s with
  | EmptyString => EmptyString
  | String c s' => String (toLowerByte c) (ToLower s')
  end.

Definition EqualFold (a b : string) : bool := (ToLower a =? ToLower b)%string.

(** The ascending arrangement of [l] under Go's byte-wise string order
    [String.leb] on the component [key] of the elements. *)
Fixpoint insertOn {A : Type} (key : A -> string) (x : A) (l : list A) : list A :=
  match l with
  | [] => [x]
  | y :: l' => if String.leb (key x) (key y) then x :: y :: l' else y :: insertOn key x l'
  end.

Fixpoint sortOn {A : Type} (key : A -> string) (l : list A) : list A :=
  match l with
  | [] => []
  | x :: l' => insertOn key x (sortOn key l')
  end.

(** [sort.Strings].  Strings that compare equal are the same string, so
    a slice has one ascending arrangement only ([sorted_perm_unique]) and
    the sorting algorithm of the library does not show in the result. *)
Definition sortStrings (l : list string) : list string := sortOn (fun s => s) l.

Definition stringLe (a b : string) : Prop := String.leb a b = true.

Definition leOn {A : Type} (key : A -> string) (x y : A) : Prop :=
  stringLe (key x) (key y).

(** ** Data model (package [telemetryv1alpha1]) *)

(** A key/value pair of a rendered section ([config.Parameter]). *)
Record ConfigParam : Type := mkParam { Key : string; Value : string }.

Definition ParameterList : Type := list ConfigParam.

Record SecretKeyRef : Type := mkSecretKeyRef {
  SecretKeyRef_Namespace : string;
  SecretKeyRef_Name : string;
  SecretKeyRef_Key : string
}.

Record ValueFromSource : Type := mkValueFromSource {
  ValueFromSource_SecretKeyRef : SecretKeyRef
}.

(** [ValueFrom] is a pointer in the source ([value.ValueFrom != nil]). *)
Record ValueType : Type := mkValueType {
  ValueType_Value : string;
  ValueType_ValueFrom : option ValueFromSource
}.

Record TLSConfig : Type := mkTLSConfig {
  TLSConfig_Disabled : bool;
  TLSConfig_SkipCertificateValidation : bool;
  TLSConfig_CA : ValueType;
  TLSConfig_Cert : ValueType;
  TLSConfig_Key : ValueType
}.

Record HTTPOutput : Type := mkHTTPOutput {
  HTTPOutput_Host : ValueType;
  HTTPOutput_User : ValueType;
  HTTPOutput_Password : ValueType;
  HTTPOutput_URI : string;
  HTTPOutput_Port : string;
  HTTPOutput_Compress : string;
  HTTPOutput_Format : string;
  HTTPOutput_TLSConfig : TLSConfig
}.

(** [Labels] is a Go [map[string]string].  A Go map has no iteration
    order of its own: the field holds the entries in the order in which
    one particular [range] visits them, and the statements about the
    label formatter quantify over every such order. *)
Record LokiOutput : Type := mkLokiOutput {
  LokiOutput_URL : ValueType;
  LokiOutput_Labels : list (string * string);
  LokiOutput_RemoveKeys : list string
}.

(** [HTTP] and [Loki] are pointers: the assemblers take [*HTTPOutput]
    and [*LokiOutput]. *)
Record Output : Type := mkOutput {
  Output_Custom : string;
  Output_HTTP : option HTTPOutput;
  Output_Loki : option LokiOutput
}.

Record LogPipelineSpec : Type := mkLogPipelineSpec {
  LogPipelineSpec_Output : Output
}.

Record LogPipeline : Type := mkLogPipeline {
  LogPipeline_Name : string;
  LogPipeline_Spec : LogPipelineSpec
}.

Record PipelineDefaults : Type := mkPipelineDefaults {
  PipelineDefaults_FsBufferLimit : string
}.

(** ** Parameter list and section builder (package [config], [builder]) *)

(** Modelled from the spec: the [ParameterList] lookups [ContainsKey] and
    [GetByKey] are not part of the translated file; section 4.2 describes
    them as case-insensitive lookups over the pairs, and [GetByKey] is
    compared with [nil] by its caller, so it yields an optional pair. *)
Definition GetByKey (key : string) (l : ParameterList) : option ConfigParam :=
  find (fun p => EqualFold (Key p) key) l.

Definition ContainsKey (key : string) (l : ParameterList) : bool :=
  existsb (fun p => EqualFold (Key p) key) l.

(** Modelled from the spec: the section builder is not part of the
    translated file.  Section 4.2 describes it as an ordered, append-only
    accumulator of pairs; its state is the list of pairs added so far. *)
Definition SectionBuilder : Type := list ConfigParam.

Definition NewOutputSectionBuilder : SectionBuilder := [].

(** Modelled from the spec: [Add(key, value)] unconditionally appends. *)
Definition AddConfigParam (key value : string) (sb : SectionBuilder) : SectionBuilder :=
  (sb ++ [mkParam key value])%list.

(** Modelled from the spec: appends only when [value] is non-empty after
    trimming. *)
Definition AddIfNotEmpty (key value : string) (sb : SectionBuilder) : SectionBuilder :=
  if isEmpty (TrimSpace value) then sb else AddConfigParam key value sb.

(** Modelled from the spec: appends [value] if non-empty, else appends
    [default]. *)
Definition AddIfNotEmptyOrDefault (key value default : string) (sb : SectionBuilder)
  : SectionBuilder :=
  if isEmpty value then AddConfigParam key default sb else AddConfigParam key value sb.

(** Modelled from the spec: one line per pair, four spaces, the key, two
    spaces, the value. *)
Definition renderLine (p : ConfigParam) : string :=
  "    " ++ Key p ++ "  " ++ Value p ++ nl.

Fixpoint renderLines (l : list ConfigParam) : string :=
  match l with
  | [] => EmptyString
  | p :: l' => renderLine p ++ renderLines l'
  end.

(** [s] has [sub] as a contiguous substring. *)
Definition Contains (s sub : string) : Prop :=
  exists pre post, s = pre ++ sub ++ post.

Definition retryLimit : string := "300".

(** Number of pairs of [l] whose key is [key]. *)
Definition keyCount (key : string) (l : list ConfigParam) : nat :=
  List.length (filter (fun p => (Key p =? key)%string) l).

(** Number of pairs of [l] whose key is [key] up to letter case. *)
Definition keyCountFold (key : string) (l : list ConfigParam) : nat :=
  List.length (filter (fun p => EqualFold (Key p) key) l).

(** The values a section gives under [key], in the order of the section. *)
Definition valuesOf (key : string) (l : list ConfigParam) : list string :=
  map Value (filter (fun p => (Key p =? key)%string) l).

(** No string of [l] occurs twice. *)
Fixpoint allDistinct (l : list string) : bool :=
  match l with
  | [] => true
  | x :: l' => negb (existsb (String.eqb x) l') && allDistinct l'
  end.

(** The pair [p] when [b] holds, nothing otherwise. *)
Definition optional (b : bool) (p : ConfigParam) : list ConfigParam :=
  if b then [p] else [].

(** The three sink kinds the dispatcher knows, in its priority order. *)
Inductive SinkKind : Type := CustomSink | HTTPSink | LokiSink.

Definition sinkPriority : list SinkKind := [CustomSink; HTTPSink; LokiSink].

(** ** The custom-text parser as section 4.3 describes it *)

(** Splits at every line feed. *)
Fixpoint splitLines (s : string) : list string :=
  match s with
  | EmptyString => [EmptyString]
  | String c s' =>
      match splitLines s' with
      | l :: ls => if (c =? "010")%char then EmptyString :: l :: ls else String c l :: ls
      | [] => [String c EmptyString]
      end
  end.

(** Cuts at the first white-space byte. *)
Fixpoint cutSpace (s : string) : option (string * string) :=
  match s with
  | EmptyString => None
  | String c s' =>
      if isSpace c then Some (EmptyString, s')
      else match cutSpace s' with
           | Some (k, v) => Some (String c k, v)
           | None => None
           end
  end.

Definition parseLine (line : string) : option ConfigParam :=
  match cutSpace (TrimSpace line) with
  | Some (k, v) => if isEmpty k then None else Some (mkParam k (TrimSpace v))
  | None => None
  end.

(** Modelled from the spec: [parseMultiline] is not part of the
    translated file.  Section 4.3: each non-blank line is a key and a
    value separated by white space; the pairs keep the order of the
    lines; blank lines and lines without a value are skipped; keys are
    stored verbatim.  The statements below hold for every parser; this
    one instantiates them on concrete custom text. *)
Definition parseMultilineSpec (section : string) : ParameterList :=
  flat_map (fun line => match parseLine line with Some p => [p] | None => [] end)
           (splitLines section).

(** ** Stand-ins for the parameters, used to run the assemblers on
    concrete pipelines *)

Definition exampleEnvVarName (pipeline ns name key : string) : string :=
  pipeline ++ "_" ++ ns ++ "_" ++ name ++ "_" ++ key.

Definition exampleIsSecretKeyRef (v : ValueFromSource) : bool :=
  negb (isEmpty (SecretKeyRef_Name (ValueFromSource_SecretKeyRef v))) &&
  negb (isEmpty (SecretKeyRef_Key (ValueFromSource_SecretKeyRef v))).

Definition exampleIsDefined (v : ValueType) : bool :=
  negb (isEmpty (ValueType_Value v)) ||
  match ValueType_ValueFrom v with
  | Some vf => exampleIsSecretKeyRef vf
  | None => false
  end.

Definition exampleIsCustomDefined (o : Output) : bool :=
  negb (isEmpty (Output_Custom o)).

Definition exampleIsHTTPDefined (o : Output) : bool :=
  match Output_HTTP o with Some _ => true | None => false end.

Definition exampleIsLokiDefined (o : Output) : bool :=
  match Output_Loki o with Some _ => true | None => false end.

Definition exampleOpen : string := "[OUTPUT]" ++ nl.
Definition exampleClose : string := nl.

Definition unsetValue : ValueType := mkValueType EmptyString None.
Definition literalValue (s : string) : ValueType := mkValueType s None.
Definition secretValue (ns name key : string) : ValueType :=
  mkValueType EmptyString (Some (mkValueFromSource (mkSecretKeyRef ns name key))).

Definition noTLS : TLSConfig := mkTLSConfig false false unsetValue unsetValue unsetValue.

(** Scenario A of the specification. *)
Definition scenarioA : HTTPOutput :=
  mkHTTPOutput (literalValue "example") unsetValue unsetValue
    "https://example/logs" EmptyString EmptyString EmptyString noTLS.

(** Scenario B of the specification, in both iteration orders. *)
Definition scenarioB : list (string * string) := [("app", "foo"); ("env", "prod")].
Definition scenarioB' : list (string * string) := [("env", "prod"); ("app", "foo")].

Definition scenarioBText : string :=
  "{app=" ++ dquote ++ "foo" ++ dquote ++ ", env=" ++ dquote ++ "prod" ++ dquote ++ "}".

(** Two labels, one key a prefix of the other. *)
Definition prefixLabels : list (string * string) := [("app", "x"); ("app1", "y")].

Definition exampleLoki : LokiOutput :=
  mkLokiOutput (literalValue "http://loki:3100") scenarioB' ["stream"; "time"].

(** A Loki sink whose URL is unset. *)
Definition lokiNoURL : LokiOutput := mkLokiOutput unsetValue [] [].

(** Scenario C of the specification. *)
Definition scenarioC : Output :=
  mkOutput ("Name  kafka" ++ nl ++ "Brokers  broker:9092") None None.

(** Custom text that sets the operator's keys itself. *)
Definition customWithOperatorKeys : Output :=
  mkOutput ("name  stdout" ++ nl ++ "Match  *" ++ nl ++ "retry_limit  1" ++ nl
            ++ "storage.total_limit_size  5M") None None.

Definition examplePipeline (o : Output) : LogPipeline :=
  mkLogPipeline "p1" (mkLogPipelineSpec o).

Definition exampleDefaults : PipelineDefaults := mkPipelineDefaults "1G".

(** Pipelines with all three, two, one and none of the sinks populated. *)
Definition allSinks : Output :=
  mkOutput (Output_Custom scenarioC) (Some scenarioA) (Some exampleLoki).
Definition httpAndLoki : Output := mkOutput EmptyString (Some scenarioA) (Some exampleLoki).
Definition lokiOnly : Output := mkOutput EmptyString None (Some exampleLoki).
Definition noSink : Output := mkOutput EmptyString None None.

(** Custom text that names its own alias. *)
Definition customWithAlias : Output :=
  mkOutput ("name  stdout" ++ nl ++ "Alias  mine") None None.

(** [exampleLoki] with its labels visited in the other order. *)
Definition exampleLokiSwapped : LokiOutput :=
  mkLokiOutput (literalValue "http://loki:3100") scenarioB ["stream"; "time"].

Section Builder.

Set Default Proof Using "Type".

(** Parts of the repository outside the translated file, taken as
    parameters: the environment-variable naming function of package
    [envvar], the methods of the API types, the custom-text parser and the
    opening and closing markers of a rendered section. *)
Variable FormatEnvVarName : string -> string -> string -> string -> string.
Variable IsSecretKeyRef : ValueFromSource -> bool.
Variable IsDefined : ValueType -> bool.
Variable IsCustomDefined IsHTTPDefined IsLokiDefined : Output -> bool.
Variable parseMultiline : string -> ParameterList.
Variable sectionOpen sectionClose : string.

(** Modelled from the spec: [Build] renders an opening marker, the lines
    of the pairs in insertion order, and a closing marker; it neither
    sorts nor removes duplicates. *)
Definition Build (sb : SectionBuilder) : string :=
  sectionOpen ++ renderLines sb ++ sectionClose.

Definition resolveValue (value : ValueType) (logPipeline : string) : string :=
  if negb (isEmpty (ValueType_Value value)) then ValueType_Value value
  else
    match ValueType_ValueFrom value with
    | Some valueFrom =>
        if IsSecretKeyRef valueFrom then
          let secretKeyRef := ValueFromSource_SecretKeyRef valueFrom in
          "${" ++ FormatEnvVarName logPipeline
                    (SecretKeyRef_Namespace secretKeyRef)
                    (SecretKeyRef_Name secretKeyRef)
                    (SecretKeyRef_Key secretKeyRef) ++ "}"
        else EmptyString
    | None => EmptyString
    end.

(** [fmt.Sprintf] of the label entry: the key, an equals sign and the
    value in double quotes. *)
Definition formatLabel (kv : string * string) : string :=
  fst kv ++ "=" ++ dquote ++ snd kv ++ dquote.

(** [labels] lists the map entries in the order the [range] visits
    them. *)
Definition concatenateLabels (labels : list (string * string)) : string :=
  let labelsSlice := map formatLabel labels in
  let labelsSlice := sortStrings labelsSlice in
  "{" ++ Join labelsSlice ", " ++ "}".

(** The pairs the builder holds when [generateCustomOutput] calls
    [Build]. *)
Definition generateCustomOutputParams (output : Output) (fsBufferLimit name : string)
  : SectionBuilder :=
  let sb := NewOutputSectionBuilder in
  let customOutputParams := parseMultiline (Output_Custom output) in
  let outputName :=
    match GetByKey "name" customOutputParams with
    | Some p => Value p
    | None => EmptyString
    end in
  let aliasPresent := ContainsKey "alias" customOutputParams in
  let sb := fold_left (fun sb p => AddConfigParam (Key p) (Value p) sb)
                      customOutputParams sb in
  let sb := if negb aliasPresent
            then AddConfigParam "alias" (name ++ "-" ++ outputName) sb else sb in
  let sb := AddConfigParam "match" (name ++ ".*") sb in
  let sb := AddConfigParam "storage.total_limit_size" fsBufferLimit sb in
  let sb := AddConfigParam "retry_limit" retryLimit sb in
  sb.

Definition generateCustomOutput (output : Output) (fsBufferLimit name : string) : string :=
  Build (generateCustomOutputParams output fsBufferLimit name).

Definition generateHTTPOutputParams (httpOutput : HTTPOutput) (fsBufferLimit name : string)
  : SectionBuilder :=
  let sb := NewOutputSectionBuilder in
  let sb := AddConfigParam "name" "http" sb in
  let sb := AddConfigParam "allow_duplicated_headers" "true" sb in
  let sb := AddConfigParam "match" (name ++ ".*") sb in
  let sb := AddConfigParam "alias" (name ++ "-http") sb in
  let sb := AddConfigParam "storage.total_limit_size" fsBufferLimit sb in
  let sb := AddConfigParam "retry_limit" retryLimit sb in
  let sb := AddIfNotEmpty "uri" (HTTPOutput_URI httpOutput) sb in
  let sb := AddIfNotEmpty "compress" (HTTPOutput_Compress httpOutput) sb in
  let sb := AddIfNotEmptyOrDefault "port" (HTTPOutput_Port httpOutput) "443" sb in
  let sb := AddIfNotEmptyOrDefault "format" (HTTPOutput_Format httpOutput) "json" sb in
  let sb := if IsDefined (HTTPOutput_Host httpOutput)
            then AddConfigParam "host" (resolveValue (HTTPOutput_Host httpOutput) name) sb
            else sb in
  let sb := if IsDefined (HTTPOutput_Password httpOutput)
            then AddConfigParam "http_passwd"
                   (resolveValue (HTTPOutput_Password httpOutput) name) sb
            else sb in
  let sb := if IsDefined (HTTPOutput_User httpOutput)
            then AddConfigParam "http_user" (resolveValue (HTTPOutput_User httpOutput) name) sb
            else sb in
  let tlsEnabled :=
    if TLSConfig_Disabled (HTTPOutput_TLSConfig httpOutput) then "off" else "on" in
  let sb := AddConfigParam "tls" tlsEnabled sb in
  let tlsVerify :=
    if TLSConfig_SkipCertificateValidation (HTTPOutput_TLSConfig httpOutput)
    then "off" else "on" in
  let sb := AddConfigParam "tls.verify" tlsVerify sb in
  let sb := if IsDefined (TLSConfig_CA (HTTPOutput_TLSConfig httpOutput))
            then AddConfigParam "tls.ca_file" ("/fluent-bit/tls/" ++ name ++ "-ca.crt") sb
            else sb in
  let sb := if IsDefined (TLSConfig_Cert (HTTPOutput_TLSConfig httpOutput))
            then AddConfigParam "tls.crt_file" ("/fluent-bit/tls/" ++ name ++ "-cert.crt") sb
            else sb in
  let sb := if IsDefined (TLSConfig_Key (HTTPOutput_TLSConfig httpOutput))
            then AddConfigParam "tls.key_file" ("/fluent-bit/tls/" ++ name ++ "-key.key") sb
            else sb in
  sb.

Definition generateHTTPOutput (httpOutput : HTTPOutput) (fsBufferLimit name : string)
  : string :=
  Build (generateHTTPOutputParams httpOutput fsBufferLimit name).

Definition generateLokiOutputParams (lokiOutput : LokiOutput) (fsBufferLimit name : string)
  : SectionBuilder :=
  let sb := NewOutputSectionBuilder in
  let sb := AddConfigParam "labelMapPath" "/fluent-bit/etc/loki-labelmap.json" sb in
  let sb := AddConfigParam "loglevel" "warn" sb in
  let sb := AddConfigParam "lineformat" "json" sb in
  let sb := AddConfigParam "match" (name ++ ".*") sb in
  let sb := AddConfigParam "storage.total_limit_size" fsBufferLimit sb in
  let sb := AddConfigParam "name" "grafana-loki" sb in
  let sb := AddConfigParam "alias" (name ++ "-grafana-loki") sb in
  let sb := AddConfigParam "url" (resolveValue (LokiOutput_URL lokiOutput) name) sb in
  let sb := if negb (List.length (LokiOutput_Labels lokiOutput) =? 0)%nat
            then AddConfigParam "labels" (concatenateLabels (LokiOutput_Labels lokiOutput)) sb
            else sb in
  let sb := if negb (List.length (LokiOutput_RemoveKeys lokiOutput) =? 0)%nat
            then AddConfigParam "removeKeys" (Join (LokiOutput_RemoveKeys lokiOutput) ", ") sb
            else sb in
  sb.

Definition generateLokiOutput (lokiOutput : LokiOutput) (fsBufferLimit name : string)
  : string :=
  Build (generateLokiOutputParams lokiOutput fsBufferLimit name).

(** The result is [None] when the selected assembler dereferences a nil
    sink pointer (a run-time panic in Go), [Some] text otherwise. *)
Definition createOutputSection (pipeline : LogPipeline) (defaults : PipelineDefaults)
  : option string :=
  let output := LogPipelineSpec_Output (LogPipeline_Spec pipeline) in
  if IsCustomDefined output then
    Some (generateCustomOutput output (PipelineDefaults_FsBufferLimit defaults)
            (LogPipeline_Name pipeline))
  else if IsHTTPDefined output then
    option_map (fun h => generateHTTPOutput h (PipelineDefaults_FsBufferLimit defaults)
                           (LogPipeline_Name pipeline))
               (Output_HTTP output)
  else if IsLokiDefined output then
    option_map (fun l => generateLokiOutput l (PipelineDefaults_FsBufferLimit defaults)
                           (LogPipeline_Name pipeline))
               (Output_Loki output)
  else Some EmptyString.

(** ** The dispatcher and the label formatter as the specification words them *)

Definition sinkDefined (k : SinkKind) (o : Output) : bool :=
  match k with
  | CustomSink => IsCustomDefined o
  | HTTPSink => IsHTTPDefined o
  | LokiSink => IsLokiDefined o
  end.

Definition runAssembler (k : SinkKind) (o : Output) (fsBufferLimit name : string)
  : option string :=
  match k with
  | CustomSink => Some (generateCustomOutput o fsBufferLimit name)
  | HTTPSink => option_map (fun h => generateHTTPOutput h fsBufferLimit name) (Output_HTTP o)
  | LokiSink => option_map (fun l => generateLokiOutput l fsBufferLimit name) (Output_Loki o)
  end.

(** Section 4.8: the first sink kind of the priority order whose
    predicate holds is assembled; the empty string when there is none. *)
Definition dispatchSpec (pipeline : LogPipeline) (defaults : PipelineDefaults)
  : option string :=
  let o := LogPipelineSpec_Output (LogPipeline_Spec pipeline) in
  match find (fun k => sinkDefined k o) sinkPriority with
  | Some k => runAssembler k o (PipelineDefaults_FsBufferLimit defaults)
                (LogPipeline_Name pipeline)
  | None => Some EmptyString
  end.

Definition sortByKey (l : list (string * string)) : list (string * string) :=
  sortOn fst l.

(** Section 4.6: the entries sorted by key, each formatted, joined and
    wrapped in braces. *)
Definition labelFormatterSpec (labels : list (string * string)) : string :=
  "{" ++ Join (map formatLabel (sortByKey labels)) ", " ++ "}".

(** Section 4.5: the pairs of an HTTP section in their fixed order; the
    bracketed ones are always there, the [optional] ones only under their
    condition. *)
Definition httpSectionSpec (h : HTTPOutput) (fs name : string) : list ConfigParam :=
  ([mkParam "name" "http";
    mkParam "allow_duplicated_headers" "true";
    mkParam "match" (name ++ ".*");
    mkParam "alias" (name ++ "-http");
    mkParam "storage.total_limit_size" fs;
    mkParam "retry_limit" "300"]
   ++ optional (negb (isEmpty (TrimSpace (HTTPOutput_URI h))))
        (mkParam "uri" (HTTPOutput_URI h))
   ++ optional (negb (isEmpty (TrimSpace (HTTPOutput_Compress h))))
        (mkParam "compress" (HTTPOutput_Compress h))
   ++ [mkParam "port" (if isEmpty (HTTPOutput_Port h) then "443" else HTTPOutput_Port h);
       mkParam "format"
         (if isEmpty (HTTPOutput_Format h) then "json" else HTTPOutput_Format h)]
   ++ optional (IsDefined (HTTPOutput_Host h))
        (mkParam "host" (resolveValue (HTTPOutput_Host h) name))
   ++ optional (IsDefined (HTTPOutput_Password h))
        (mkParam "http_passwd" (resolveValue (HTTPOutput_Password h) name))
   ++ optional (IsDefined (HTTPOutput_User h))
        (mkParam "http_user" (resolveValue (HTTPOutput_User h) name))
   ++ [mkParam "tls"
         (if TLSConfig_Disabled (HTTPOutput_TLSConfig h) then "off" else "on");
       mkParam "tls.verify"
         (if TLSConfig_SkipCertificateValidation (HTTPOutput_TLSConfig h)
          then "off" else "on")]
   ++ optional (IsDefined (TLSConfig_CA (HTTPOutput_TLSConfig h)))
        (mkParam "tls.ca_file" ("/fluent-bit/tls/" ++ name ++ "-ca.crt"))
   ++ optional (IsDefined (TLSConfig_Cert (HTTPOutput_TLSConfig h)))
        (mkParam "tls.crt_file" ("/fluent-bit/tls/" ++ name ++ "-cert.crt"))
   ++ optional (IsDefined (TLSConfig_Key (HTTPOutput_TLSConfig h)))
        (mkParam "tls.key_file" ("/fluent-bit/tls/" ++ name ++ "-key.key")))%list.

(** ** Strings *)

Lemma append_assoc (a b c : string) : (a ++ b) ++ c = a ++ (b ++ c).
Proof. induction a as [|x a IH]; simpl; [reflexivity | now rewrite IH]. Qed.

Lemma append_nil_r (a : string) : a ++ EmptyString = a.
Proof. induction a as [|x a IH]; simpl; [reflexivity | now rewrite IH]. Qed.

Lemma Contains_refl (s : string) : Contains s s.
Proof. exists EmptyString, EmptyString. simpl. now rewrite append_nil_r. Qed.

Lemma Contains_app_l (a s sub : string) : Contains s sub -> Contains (a ++ s) sub.
Proof.
  intros (pre & post & ->). exists (a ++ pre), post. now rewrite append_assoc.
Qed.

Lemma Contains_app_r (s b sub : string) : Contains s sub -> Contains (s ++ b) sub.
Proof.
  intros (pre & post & ->). exists pre, (post ++ b). now rewrite !append_assoc.
Qed.

Lemma Contains_trans (s t u : string) : Contains s t -> Contains t u -> Contains s u.
Proof.
  intros (p1 & q1 & ->) H. now apply Contains_app_l, Contains_app_r.
Qed.

Lemma isEmpty_true (s : string) : isEmpty s = true <-> s = EmptyString.
Proof. destruct s; simpl; split; congruence. Qed.

Lemma isEmpty_false (s : string) : isEmpty s = false <-> s <> EmptyString.
Proof. destruct s; simpl; split; congruence. Qed.


(** ** The builder *)

Lemma renderLines_app (l1 l2 : list ConfigParam) :
  renderLines (l1 ++ l2) = renderLines l1 ++ renderLines l2.
Proof.
  induction l1 as [|p l1 IH]; cbn [renderLines List.app append]; [reflexivity|].
  now rewrite IH, append_assoc.
Qed.

Lemma renderLines_contains (l : list ConfigParam) (p : ConfigParam) :
  In p l -> Contains (renderLines l) (renderLine p).
Proof.
  induction l as [|q l IH]; cbn [renderLines In]; [intros []|].
  intros [->|H].
  - apply Contains_app_r, Contains_refl.
  - apply Contains_app_l, IH, H.
Qed.

(** Every pair the builder holds has its line in the rendered text. *)
Lemma Build_contains (sb : SectionBuilder) (p : ConfigParam) :
  In p sb -> Contains (Build sb) (renderLine p).
Proof.
  intros H. unfold Build.
  apply Contains_app_l, Contains_app_r, renderLines_contains, H.
Qed.

Lemma add_all (l sb : list ConfigParam) :
  fold_left (fun sb p => AddConfigParam (Key p) (Value p) sb) l sb = (sb ++ l)%list.
Proof.
  revert sb. induction l as [|p l IH]; intros sb; simpl.
  - now rewrite app_nil_r.
  - rewrite IH. unfold AddConfigParam. destruct p. simpl.
    now rewrite <- app_assoc.
Qed.

Lemma add_if (b : bool) (key value : string) (sb : SectionBuilder) :
  (if b then AddConfigParam key value sb else sb)
  = (sb ++ optional b (mkParam key value))%list.
Proof. destruct b; simpl; [reflexivity | now rewrite app_nil_r]. Qed.

Lemma AddIfNotEmpty_optional (key value : string) (sb : SectionBuilder) :
  AddIfNotEmpty key value sb
  = (sb ++ optional (negb (isEmpty (TrimSpace value))) (mkParam key value))%list.
Proof.
  unfold AddIfNotEmpty. destruct (isEmpty (TrimSpace value)); simpl;
    [now rewrite app_nil_r | reflexivity].
Qed.

Lemma AddIfNotEmptyOrDefault_always (key value default : string) (sb : SectionBuilder) :
  AddIfNotEmptyOrDefault key value default sb
  = (sb ++ [mkParam key (if isEmpty value then default else value)])%list.
Proof. unfold AddIfNotEmptyOrDefault. now destruct (isEmpty value). Qed.

Lemma keyCount_app (key : string) (l1 l2 : list ConfigParam) :
  keyCount key (l1 ++ l2) = keyCount key l1 + keyCount key l2.
Proof. unfold keyCount. now rewrite filter_app, length_app. Qed.

Lemma keyCountFold_app (key : string) (l1 l2 : list ConfigParam) :
  keyCountFold key (l1 ++ l2) = keyCountFold key l1 + keyCountFold key l2.
Proof. unfold keyCountFold. now rewrite filter_app, length_app. Qed.

(** The pairs of the three assemblers, as lists. *)
Lemma generateHTTPOutputParams_eq (h : HTTPOutput) (fs name : string) :
  generateHTTPOutputParams h fs name = httpSectionSpec h fs name.
Proof.
  unfold generateHTTPOutputParams, httpSectionSpec. cbv zeta.
  rewrite !add_if, !AddIfNotEmptyOrDefault_always, !AddIfNotEmpty_optional.
  unfold AddConfigParam, NewOutputSectionBuilder, retryLimit.
  repeat rewrite <- app_assoc. reflexivity.
Qed.

Lemma generateLokiOutputParams_eq (lo : LokiOutput) (fs name : string) :
  generateLokiOutputParams lo fs name =
  ([mkParam "labelMapPath" "/fluent-bit/etc/loki-labelmap.json";
    mkParam "loglevel" "warn";
    mkParam "lineformat" "json";
    mkParam "match" (name ++ ".*");
    mkParam "storage.total_limit_size" fs;
    mkParam "name" "grafana-loki";
    mkParam "alias" (name ++ "-grafana-loki");
    mkParam "url" (resolveValue (LokiOutput_URL lo) name)]
   ++ optional (negb (List.length (LokiOutput_Labels lo) =? 0)%nat)
        (mkParam "labels" (concatenateLabels (LokiOutput_Labels lo)))
   ++ optional (negb (List.length (LokiOutput_RemoveKeys lo) =? 0)%nat)
        (mkParam "removeKeys" (Join (LokiOutput_RemoveKeys lo) ", ")))%list.
Proof.
  unfold generateLokiOutputParams. cbv zeta.
  rewrite !add_if.
  unfold AddConfigParam, NewOutputSectionBuilder.
  repeat rewrite <- app_assoc. reflexivity.
Qed.

Lemma generateCustomOutputParams_eq (o : Output) (fs name : string) :
  generateCustomOutputParams o fs name =
  (parseMultiline (Output_Custom o)
   ++ optional (negb (ContainsKey "alias" (parseMultiline (Output_Custom o))))
        (mkParam "alias"
           (name ++ "-" ++
            match GetByKey "name" (parseMultiline (Output_Custom o)) with
            | Some p => Value p
            | None => EmptyString
            end))
   ++ [mkParam "match" (name ++ ".*");
       mkParam "storage.total_limit_size" fs;
       mkParam "retry_limit" "300"])%list.
Proof.
  unfold generateCustomOutputParams. cbv zeta.
  rewrite add_all, add_if.
  unfold AddConfigParam, NewOutputSectionBuilder, retryLimit.
  repeat rewrite <- app_assoc. reflexivity.
Qed.

(** ** Lookups in a parameter list *)


Lemma GetByKey_None (key : string) (l : ParameterList) :
  GetByKey key l = None -> forall p, In p l -> EqualFold (Key p) key = false.
Proof. intros H p Hp. exact (find_none _ _ H p Hp). Qed.



Ltac in_list := rewrite ?in_app_iff; simpl; auto 30.

Ltac count_literals :=
  cbn [optional];
  repeat match goal with
         | |- context [keyCountFold ?k (?x :: ?l)] =>
             let v := eval vm_compute in (keyCountFold k (x :: l)) in
             change (keyCountFold k (x :: l)) with v
         | |- context [keyCountFold ?k []] => change (keyCountFold k []) with 0
         end.

Ltac case_optional :=
  repeat match goal with
         | |- context [optional ?b _] =>
             lazymatch b with
             | true => fail
             | false => fail
             | _ => destruct b
             end
         end.

(** ** Retry and buffer policy *)

(** C1 (the code departs from the claim).  The custom and the HTTP
    assembler emit [retry_limit] with the policy constant 300 and
    [storage.total_limit_size] with the supplied buffer ceiling.  The
    Loki assembler emits the buffer ceiling, but no pair whose key is
    [retry_limit] in any letter case, whatever its input. *)
Theorem retry_limit_missing_for_loki
    (o : Output) (h : HTTPOutput) (lo : LokiOutput) (fs name : string) :
  (In (mkParam "retry_limit" "300") (generateCustomOutputParams o fs name) /\
   In (mkParam "storage.total_limit_size" fs) (generateCustomOutputParams o fs name)) /\
  (In (mkParam "retry_limit" "300") (generateHTTPOutputParams h fs name) /\
   In (mkParam "storage.total_limit_size" fs) (generateHTTPOutputParams h fs name)) /\
  In (mkParam "storage.total_limit_size" fs) (generateLokiOutputParams lo fs name) /\
  keyCountFold "retry_limit" (generateLokiOutputParams lo fs name) = 0.
Proof.
  rewrite generateCustomOutputParams_eq, generateHTTPOutputParams_eq,
    generateLokiOutputParams_eq.
  unfold httpSectionSpec.
  repeat split; try solve [in_list].
  - rewrite !keyCountFold_app.
    destruct (negb (List.length (LokiOutput_Labels lo) =? 0)%nat),
             (negb (List.length (LokiOutput_RemoveKeys lo) =? 0)%nat); reflexivity.
Qed.

(** ** The HTTP assembler *)



(** ** The Loki assembler *)

(** C10.  Every Loki section has exactly one [url] pair, whose value is
    the resolved URL; when the URL has an empty literal and no secret
    reference the pair is emitted with the empty value, and its line is
    in the rendered text. *)
Theorem loki_url_always_emitted (lo : LokiOutput) (fs name : string) :
  let ps := generateLokiOutputParams lo fs name in
  keyCount "url" ps = 1 /\
  In (mkParam "url" (resolveValue (LokiOutput_URL lo) name)) ps /\
  Contains (generateLokiOutput lo fs name)
    (renderLine (mkParam "url" (resolveValue (LokiOutput_URL lo) name))) /\
  (ValueType_Value (LokiOutput_URL lo) = EmptyString ->
   ValueType_ValueFrom (LokiOutput_URL lo) = None ->
   In (mkParam "url" EmptyString) ps /\
   Contains (generateLokiOutput lo fs name) ("    url  " ++ nl)).
Proof.
  cbv zeta.
  assert (Hin : In (mkParam "url" (resolveValue (LokiOutput_URL lo) name))
                  (generateLokiOutputParams lo fs name))
    by (rewrite generateLokiOutputParams_eq; in_list).
  split; [|split; [exact Hin|split]].
  - rewrite generateLokiOutputParams_eq, !keyCount_app.
    case_optional; reflexivity.
  - now apply Build_contains.
  - intros Hv Hf.
    assert (Hr : resolveValue (LokiOutput_URL lo) name = EmptyString)
      by (unfold resolveValue; now rewrite Hv, Hf).
    rewrite Hr in Hin. split; [exact Hin|].
    apply (Build_contains _ _ Hin).
Qed.

(** ** The custom assembler *)



(** ** The dispatcher *)

(** C2.  [createOutputSection] tries the predicates in the order
    custom, HTTP, Loki and returns what the assembler of the first one
    that holds returns: it agrees with [dispatchSpec], which runs at
    most one assembler.  A custom sink wins over the two others, an HTTP
    sink over a Loki sink, and when no predicate holds the result is the
    empty string. *)
Theorem createOutputSection_dispatch (pipeline : LogPipeline) (defaults : PipelineDefaults) :
  let o := LogPipelineSpec_Output (LogPipeline_Spec pipeline) in
  let fs := PipelineDefaults_FsBufferLimit defaults in
  let name := LogPipeline_Name pipeline in
  createOutputSection pipeline defaults = dispatchSpec pipeline defaults /\
  (IsCustomDefined o = true ->
   createOutputSection pipeline defaults = runAssembler CustomSink o fs name) /\
  (IsCustomDefined o = false -> IsHTTPDefined o = true ->
   createOutputSection pipeline defaults = runAssembler HTTPSink o fs name) /\
  (IsCustomDefined o = false -> IsHTTPDefined o = false -> IsLokiDefined o = true ->
   createOutputSection pipeline defaults = runAssembler LokiSink o fs name) /\
  (IsCustomDefined o = false -> IsHTTPDefined o = false -> IsLokiDefined o = false ->
   createOutputSection pipeline defaults = Some EmptyString).
Proof.
  cbv zeta. unfold createOutputSection, dispatchSpec, sinkPriority.
  cbn [find sinkDefined runAssembler].
  destruct (IsCustomDefined _), (IsHTTPDefined _), (IsLokiDefined _);
    repeat split; intros; try discriminate; reflexivity.
Qed.

(** ** The value resolver *)

(** C4.  A non-empty literal is returned as it is, whatever the
    reference; with an empty literal and a secret-key reference the
    result is the placeholder made of [FormatEnvVarName] applied to the
    pipeline name and the namespace, name and key of the secret; with an
    empty literal and no secret-key reference the result is the empty
    string.  [resolveValue] is total: it has no error result. *)
Theorem resolveValue_cases (value : ValueType) (logPipeline : string) :
  (ValueType_Value value <> EmptyString ->
   resolveValue value logPipeline = ValueType_Value value) /\
  (ValueType_Value value = EmptyString ->
   forall valueFrom,
     ValueType_ValueFrom value = Some valueFrom ->
     IsSecretKeyRef valueFrom = true ->
     resolveValue value logPipeline
     = "${" ++ FormatEnvVarName logPipeline
                 (SecretKeyRef_Namespace (ValueFromSource_SecretKeyRef valueFrom))
                 (SecretKeyRef_Name (ValueFromSource_SecretKeyRef valueFrom))
                 (SecretKeyRef_Key (ValueFromSource_SecretKeyRef valueFrom)) ++ "}") /\
  (ValueType_Value value = EmptyString ->
   (ValueType_ValueFrom value = None \/
    exists valueFrom, ValueType_ValueFrom value = Some valueFrom /\
                      IsSecretKeyRef valueFrom = false) ->
   resolveValue value logPipeline = EmptyString).
Proof.
  unfold resolveValue. split; [|split].
  - intros H. apply isEmpty_false in H. now rewrite H.
  - intros H vf Hvf Hs. now rewrite H, Hvf, Hs.
  - intros H [Hn | (vf & Hvf & Hs)].
    + now rewrite H, Hn.
    + now rewrite H, Hvf, Hs.
Qed.

(** ** Byte-wise order and sorting *)

Lemma ascii_compare_refl (c : ascii) : Ascii.compare c c = Eq.
Proof. apply N.compare_refl. Qed.

Lemma string_compare_refl (s : string) : String.compare s s = Eq.
Proof.
  induction s as [|c s IH]; simpl; [reflexivity|].
  now rewrite ascii_compare_refl.
Qed.

Lemma stringLe_refl (s : string) : stringLe s s.
Proof. unfold stringLe, String.leb. now rewrite string_compare_refl. Qed.

Lemma stringLe_trans (a b c : string) : stringLe a b -> stringLe b c -> stringLe a c.
Proof.
  unfold stringLe, String.leb. revert b c.
  induction a as [|x a IH]; intros [|y b] [|z c]; simpl; try congruence.
  unfold Ascii.compare.
  destruct (N.compare (N_of_ascii x) (N_of_ascii y)) eqn:Exy;
    destruct (N.compare (N_of_ascii y) (N_of_ascii z)) eqn:Eyz;
    destruct (N.compare (N_of_ascii x) (N_of_ascii z)) eqn:Exz;
    try congruence;
    try (apply N.compare_eq_iff in Exy); try (apply N.compare_eq_iff in Eyz);
    try (apply N.compare_eq_iff in Exz);
    rewrite ?N.compare_lt_iff, ?N.compare_gt_iff in *;
    try lia.
  apply IH.
Qed.

Lemma stringLe_antisym (a b : string) : stringLe a b -> stringLe b a -> a = b.
Proof. apply String.leb_antisym. Qed.

Lemma stringLe_total (a b : string) : stringLe a b \/ stringLe b a.
Proof. apply String.leb_total. Qed.

Section SortOn.

Variable A : Type.
Variable key : A -> string.

Lemma insertOn_Permutation (x : A) (l : list A) :
  Permutation (insertOn key x l) (x :: l).
Proof.
  induction l as [|y l IH]; simpl; [reflexivity|].
  destruct (String.leb (key x) (key y)); [reflexivity|].
  rewrite IH. apply perm_swap.
Qed.

Lemma sortOn_Permutation (l : list A) : Permutation (sortOn key l) l.
Proof.
  induction l as [|x l IH]; simpl; [reflexivity|].
  now rewrite insertOn_Permutation, IH.
Qed.

Lemma insertOn_StronglySorted (x : A) (l : list A) :
  StronglySorted (leOn key) l -> StronglySorted (leOn key) (insertOn key x l).
Proof.
  induction 1 as [|y l Hs IH Hy]; simpl.
  - constructor; constructor.
  - destruct (String.leb (key x) (key y)) eqn:E.
    + constructor; [now constructor|].
      constructor; [exact E|].
      eapply Forall_impl; [|exact Hy].
      intros z Hz. exact (stringLe_trans _ _ _ E Hz).
    + constructor; [exact IH|].
      rewrite (insertOn_Permutation x l). constructor; [|exact Hy].
      destruct (stringLe_total (key x) (key y)) as [H|H]; [congruence | exact H].
Qed.

Lemma sortOn_StronglySorted (l : list A) : StronglySorted (leOn key) (sortOn key l).
Proof.
  induction l as [|x l IH]; simpl; [constructor|].
  now apply insertOn_StronglySorted.
Qed.

End SortOn.

(** A list of strings has one ascending arrangement. *)
Lemma sorted_perm_unique (l1 l2 : list string) :
  StronglySorted stringLe l1 -> StronglySorted stringLe l2 ->
  Permutation l1 l2 -> l1 = l2.
Proof.
  intros H1. revert l2.
  induction H1 as [|x l1 Hs IH Hx]; intros l2 H2 HP.
  - now apply Permutation_nil in HP.
  - destruct H2 as [|y l2 Hs2 Hy].
    + apply Permutation_sym, Permutation_nil in HP. discriminate HP.
    + assert (x = y) as <-.
      { apply stringLe_antisym.
        - assert (Hin : In y (x :: l1))
            by (eapply Permutation_in; [symmetry; exact HP | now left]).
          destruct Hin as [<-|Hin]; [apply stringLe_refl|].
          rewrite Forall_forall in Hx. now apply Hx.
        - assert (Hin : In x (y :: l2))
            by (eapply Permutation_in; [exact HP | now left]).
          destruct Hin as [<-|Hin]; [apply stringLe_refl|].
          rewrite Forall_forall in Hy. now apply Hy. }
      f_equal. apply IH; [exact Hs2|]. now apply Permutation_cons_inv in HP.
Qed.

Lemma sortStrings_StronglySorted (l : list string) :
  StronglySorted stringLe (sortStrings l).
Proof. apply (sortOn_StronglySorted string (fun s => s)). Qed.

Lemma sortStrings_Permutation (l : list string) : Permutation (sortStrings l) l.
Proof. apply sortOn_Permutation. Qed.

(** [sortStrings] returns the ascending arrangement, whichever order the
    slice came in. *)
Lemma sortStrings_unique (l sorted : list string) :
  Permutation sorted l -> StronglySorted stringLe sorted -> sortStrings l = sorted.
Proof.
  intros HP Hs. apply sorted_perm_unique;
    [apply sortStrings_StronglySorted | exact Hs|].
  now rewrite sortStrings_Permutation, HP.
Qed.

(** Comparing two strings, neither of which is a prefix of the other,
    is decided before either ends, so what follows them is not looked
    at. *)
Lemma compare_app_no_prefix (k1 k2 s1 s2 : string) :
  prefix k1 k2 = false -> prefix k2 k1 = false ->
  String.compare (k1 ++ s1) (k2 ++ s2) = String.compare k1 k2.
Proof.
  revert k2. induction k1 as [|a k1 IH]; intros [|b k2]; simpl; try discriminate.
  destruct (Ascii.compare a b) eqn:E; try reflexivity.
  apply Ascii.compare_eq_iff in E. subst b.
  destruct (ascii_dec a a) as [_|N]; [apply IH | congruence].
Qed.

Lemma formatLabel_sorted (l : list (string * string)) :
  NoDup (map fst l) ->
  (forall k1 k2, In k1 (map fst l) -> In k2 (map fst l) -> k1 <> k2 ->
                 prefix k1 k2 = false) ->
  StronglySorted (leOn fst) l ->
  StronglySorted stringLe (map formatLabel l).
Proof.
  intros Hnd Hpre Hs. induction Hs as [|a l Hs IH Ha]; simpl; [constructor|].
  inversion Hnd as [|? ? Hnotin Hnd']; subst.
  constructor.
  - apply IH; [exact Hnd'|].
    intros k1 k2 H1 H2. apply Hpre; now right.
  - rewrite Forall_forall in *. intros s Hin.
    apply in_map_iff in Hin. destruct Hin as (b & <- & Hb).
    assert (Hne : fst a <> fst b).
    { intros E. apply Hnotin. rewrite E. now apply in_map. }
    unfold stringLe, String.leb, formatLabel.
    rewrite compare_app_no_prefix.
    + exact (Ha b Hb).
    + apply Hpre; [now left | right; now apply in_map | exact Hne].
    + apply Hpre; [right; now apply in_map | now left | congruence].
Qed.

(** ** The label formatter *)

(** C9.  Two iteration orders of the same label map, that is two lists
    with the same entries in any order, are formatted to the same
    string. *)
Theorem concatenateLabels_order_independent (labels1 labels2 : list (string * string)) :
  Permutation labels1 labels2 ->
  concatenateLabels labels1 = concatenateLabels labels2.
Proof.
  intros HP. unfold concatenateLabels. cbv zeta. do 3 f_equal.
  apply sortStrings_unique; [|apply sortStrings_StronglySorted].
  rewrite sortStrings_Permutation. apply Permutation_map. now symmetry.
Qed.

(** C8 (amended).  The output is the formatted entries in ascending
    byte-wise order of the formatted entries (not of the keys), joined
    by a comma and a space and wrapped in braces.  That is the order of
    the keys whenever no key is a prefix of another key, and both
    iteration orders of the labels of scenario B give the text of the
    scenario. *)
Theorem concatenateLabels_sorts_formatted_entries (labels : list (string * string)) :
  (exists entries,
      Permutation entries (map formatLabel labels) /\
      StronglySorted stringLe entries /\
      concatenateLabels labels = "{" ++ Join entries ", " ++ "}") /\
  (NoDup (map fst labels) ->
   (forall k1 k2, In k1 (map fst labels) -> In k2 (map fst labels) -> k1 <> k2 ->
                  prefix k1 k2 = false) ->
   concatenateLabels labels = labelFormatterSpec labels) /\
  concatenateLabels scenarioB = scenarioBText /\
  concatenateLabels scenarioB' = scenarioBText.
Proof.
  split; [|split; [|split; reflexivity]].
  - exists (sortStrings (map formatLabel labels)).
    split; [apply sortStrings_Permutation|].
    split; [apply sortStrings_StronglySorted | reflexivity].
  - intros Hnd Hpre. unfold concatenateLabels, labelFormatterSpec, sortByKey.
    cbv zeta. do 3 f_equal.
    pose proof (sortOn_Permutation _ fst labels) as HP.
    apply sortStrings_unique; [now apply Permutation_map|].
    apply formatLabel_sorted.
    + eapply Permutation_NoDup; [|exact Hnd].
      apply Permutation_map. now symmetry.
    + intros k1 k2 H1 H2. apply Hpre.
      * eapply Permutation_in; [|exact H1]. now apply Permutation_map.
      * eapply Permutation_in; [|exact H2]. now apply Permutation_map.
    + apply sortOn_StronglySorted.
Qed.

(** ** Further properties of the assemblers *)

Lemma concatenateLabels_sorted_eq (labels1 labels2 : list (string * string)) :
  Permutation labels1 labels2 ->
  concatenateLabels labels1 = concatenateLabels labels2.
Proof.
  intros HP. unfold concatenateLabels. cbv zeta. do 3 f_equal.
  apply sortStrings_unique; [|apply sortStrings_StronglySorted].
  rewrite sortStrings_Permutation. apply Permutation_map. now symmetry.
Qed.


Lemma allDistinct_NoDup (l : list string) : allDistinct l = true -> NoDup l.
Proof.
  induction l as [|x l IH]; simpl; intros H; [constructor|].
  apply andb_true_iff in H. destruct H as [Hx Hl].
  constructor; [|now apply IH].
  intros Hin. apply negb_true_iff in Hx.
  assert (Hex : existsb (String.eqb x) l = true).
  { apply existsb_exists. exists x. split; [exact Hin | apply String.eqb_refl]. }
  congruence.
Qed.

(** X1.  An HTTP section names a CA, certificate or key file exactly when
    the corresponding field of the TLS configuration is defined; the
    value is the mount path built from the pipeline name. *)
Theorem http_tls_files (h : HTTPOutput) (fs name : string) :
  let ps := generateHTTPOutputParams h fs name in
  let tlsConfig := HTTPOutput_TLSConfig h in
  valuesOf "tls.ca_file" ps
  = (if IsDefined (TLSConfig_CA tlsConfig)
     then ["/fluent-bit/tls/" ++ name ++ "-ca.crt"] else []) /\
  valuesOf "tls.crt_file" ps
  = (if IsDefined (TLSConfig_Cert tlsConfig)
     then ["/fluent-bit/tls/" ++ name ++ "-cert.crt"] else []) /\
  valuesOf "tls.key_file" ps
  = (if IsDefined (TLSConfig_Key tlsConfig)
     then ["/fluent-bit/tls/" ++ name ++ "-key.key"] else []).
Proof.
  cbv zeta. rewrite generateHTTPOutputParams_eq. unfold httpSectionSpec.
  case_optional; repeat split; reflexivity.
Qed.

(** X2.  No key occurs twice in an HTTP section, and the section has
    between ten and eighteen pairs. *)
Theorem http_section_keys_distinct (h : HTTPOutput) (fs name : string) :
  let ps := generateHTTPOutputParams h fs name in
  NoDup (map Key ps) /\ 10 <= List.length ps <= 18.
Proof.
  cbv zeta. rewrite generateHTTPOutputParams_eq. unfold httpSectionSpec.
  case_optional;
    (split; [apply allDistinct_NoDup; reflexivity | simpl; lia]).
Qed.

(** X3.  No key occurs twice in a Loki section; [labels] is there
    exactly when the label map is non-empty, with the formatted labels,
    and [removeKeys] exactly when the list of keys is non-empty, with
    the keys joined by a comma and a space. *)
Theorem loki_section_keys (lo : LokiOutput) (fs name : string) :
  let ps := generateLokiOutputParams lo fs name in
  NoDup (map Key ps) /\
  valuesOf "labels" ps
  = match LokiOutput_Labels lo with
    | [] => []
    | _ :: _ => [concatenateLabels (LokiOutput_Labels lo)]
    end /\
  valuesOf "removeKeys" ps
  = match LokiOutput_RemoveKeys lo with
    | [] => []
    | _ :: _ => [Join (LokiOutput_RemoveKeys lo) ", "]
    end.
Proof.
  cbv zeta. rewrite generateLokiOutputParams_eq.
  destruct (LokiOutput_Labels lo) as [|kv labels];
    destruct (LokiOutput_RemoveKeys lo) as [|k keys];
    cbn [List.length Nat.eqb negb optional];
    (split; [apply allDistinct_NoDup; reflexivity | split; reflexivity]).
Qed.

(** X4.  Whatever sink the dispatcher assembles, the text it returns has
    the line that matches the records of the pipeline itself and the
    line of the buffer ceiling. *)
Theorem createOutputSection_match_and_buffer
    (pipeline : LogPipeline) (defaults : PipelineDefaults) (text : string) :
  let o := LogPipelineSpec_Output (LogPipeline_Spec pipeline) in
  IsCustomDefined o || IsHTTPDefined o || IsLokiDefined o = true ->
  createOutputSection pipeline defaults = Some text ->
  Contains text (renderLine (mkParam "match" (LogPipeline_Name pipeline ++ ".*"))) /\
  Contains text (renderLine (mkParam "storage.total_limit_size"
                               (PipelineDefaults_FsBufferLimit defaults))).
Proof.
  cbv zeta. unfold createOutputSection. intros Hdef Hrun.
  destruct (IsCustomDefined _).
  - injection Hrun as <-.
    split; apply Build_contains; rewrite generateCustomOutputParams_eq; in_list.
  - destruct (IsHTTPDefined _).
    + destruct (Output_HTTP _) as [h|]; [|discriminate Hrun].
      injection Hrun as <-.
      split; apply Build_contains; rewrite generateHTTPOutputParams_eq;
        unfold httpSectionSpec; in_list.
    + destruct (IsLokiDefined _); [|discriminate Hdef].
      destruct (Output_Loki _) as [lo|]; [|discriminate Hrun].
      injection Hrun as <-.
      split; apply Build_contains; rewrite generateLokiOutputParams_eq; in_list.
Qed.

(** X5.  The dispatcher fails only by handing a nil sink to the HTTP or
    the Loki assembler: when the custom predicate does not hold and the
    first of the two other predicates that holds belongs to a sink that
    is not set.  A custom sink never fails. *)
Theorem createOutputSection_nil_sink
    (pipeline : LogPipeline) (defaults : PipelineDefaults) :
  let o := LogPipelineSpec_Output (LogPipeline_Spec pipeline) in
  createOutputSection pipeline defaults = None <->
  IsCustomDefined o = false /\
  ((IsHTTPDefined o = true /\ Output_HTTP o = None) \/
   (IsHTTPDefined o = false /\ IsLokiDefined o = true /\ Output_Loki o = None)).
Proof.
  cbv zeta. unfold createOutputSection.
  destruct (IsCustomDefined _), (IsHTTPDefined _), (IsLokiDefined _),
    (Output_HTTP _), (Output_Loki _); simpl; split;
    try discriminate; try (intros _; auto; fail);
    intros [H1 [[H2 H3]|[H2 [H3 H4]]]]; try discriminate; reflexivity.
Qed.

Lemma formatLabel_nonempty (kv : string * string) : formatLabel kv <> EmptyString.
Proof. unfold formatLabel. destruct (fst kv); discriminate. Qed.

Lemma Join_nonempty (x : string) (l : list string) (sep : string) :
  x <> EmptyString -> Join (x :: l) sep <> EmptyString.
Proof.
  intros Hx. destruct x as [|c x]; [congruence|].
  destruct l; simpl; discriminate.
Qed.

(** X6.  The formatter returns the empty selector, an opening and a
    closing brace, for the empty map only; so the [labels] pair of a
    Loki section, present only for a non-empty map, never holds the
    empty selector. *)
Theorem labels_never_empty_selector (lo : LokiOutput) (fs name : string) :
  (forall labels, concatenateLabels labels = "{}" <-> labels = []) /\
  ~ In (mkParam "labels" "{}") (generateLokiOutputParams lo fs name).
Proof.
  assert (Hempty : forall labels, concatenateLabels labels = "{}" <-> labels = []).
  { intros labels. split; [|intros ->; reflexivity].
    destruct labels as [|kv labels]; [reflexivity|]. intros H. exfalso.
    unfold concatenateLabels in H. cbv zeta in H.
    pose proof (sortStrings_Permutation (map formatLabel (kv :: labels))) as HP.
    destruct (sortStrings (map formatLabel (kv :: labels))) as [|y ys] eqn:E.
    - apply Permutation_nil in HP. discriminate HP.
    - assert (Hy : y <> EmptyString).
      { assert (Hin : In y (map formatLabel (kv :: labels)))
          by (eapply Permutation_in; [exact HP | now left]).
        apply in_map_iff in Hin. destruct Hin as (b & <- & _).
        apply formatLabel_nonempty. }
      pose proof (Join_nonempty y ys ", " Hy) as HJ.
      destruct (Join (y :: ys) ", ") as [|c rest]; [congruence|].
      simpl in H. injection H as _ H. destruct rest; discriminate H. }
  split; [exact Hempty|].
  rewrite generateLokiOutputParams_eq. intros Hin.
  rewrite !in_app_iff in Hin. simpl in Hin.
  destruct Hin as [Hin|[Hin|Hin]].
  - repeat destruct Hin as [Hin|Hin]; try discriminate Hin; exact Hin.
  - destruct (LokiOutput_Labels lo) as [|kv labels] eqn:E; simpl in Hin.
    + exact Hin.
    + destruct Hin as [Hin|[]]. apply (f_equal Value) in Hin. cbn [Value] in Hin.
      apply Hempty in Hin. discriminate Hin.
  - destruct (negb _); simpl in Hin; [|exact Hin].
    destruct Hin as [Hin|[]]. discriminate Hin.
Qed.

(** X7.  Label values are not escaped: a value that holds a double
    quote, a comma and the text of a second label is formatted to the
    same string as the two labels, when the first label sorts before the
    second. *)
Theorem label_value_not_escaped (k1 v1 k2 v2 : string) :
  stringLe (formatLabel (k1, v1)) (formatLabel (k2, v2)) ->
  concatenateLabels [(k1, v1 ++ dquote ++ ", " ++ k2 ++ "=" ++ dquote ++ v2)]
  = concatenateLabels [(k1, v1); (k2, v2)].
Proof.
  intros Hle.
  assert (Hsort : sortStrings [formatLabel (k1, v1); formatLabel (k2, v2)]
                  = [formatLabel (k1, v1); formatLabel (k2, v2)]).
  { apply sortStrings_unique; [reflexivity|].
    repeat constructor. exact Hle. }
  unfold concatenateLabels. cbv zeta. cbn [map]. rewrite Hsort.
  cbn [sortStrings sortOn insertOn Join]. unfold formatLabel. cbn [fst snd].
  f_equal. rewrite !append_assoc. reflexivity.
Qed.

(** X10.  A Loki section does not depend on the order in which the
    label map is visited. *)
Theorem generateLokiOutput_order_independent
    (url : ValueType) (labels1 labels2 : list (string * string))
    (removeKeys : list string) (fs name : string) :
  Permutation labels1 labels2 ->
  generateLokiOutput (mkLokiOutput url labels1 removeKeys) fs name
  = generateLokiOutput (mkLokiOutput url labels2 removeKeys) fs name.
Proof.
  intros HP. unfold generateLokiOutput. f_equal.
  rewrite !generateLokiOutputParams_eq. cbn [LokiOutput_URL LokiOutput_Labels
    LokiOutput_RemoveKeys].
  rewrite (Permutation_length HP).
  now rewrite (concatenateLabels_sorted_eq _ _ HP).
Qed.

Lemma GetByKey_app (key : string) (l1 l2 : ParameterList) :
  GetByKey key (l1 ++ l2)%list
  = match GetByKey key l1 with
    | Some p => Some p
    | None => GetByKey key l2
    end.
Proof.
  unfold GetByKey. induction l1 as [|q l1 IH]; simpl; [reflexivity|].
  now destruct (EqualFold (Key q) key).
Qed.

(** X8.  When a parsed pair has the key [alias] in any letter case, the
    custom assembler adds no alias of its own: the section is the parsed
    pairs followed by the operator's three pairs. *)
Theorem custom_alias_kept (o : Output) (fs name : string) (p : ConfigParam) :
  let parsed := parseMultiline (Output_Custom o) in
  let ps := generateCustomOutputParams o fs name in
  In p parsed -> EqualFold (Key p) "alias" = true ->
  ps = (parsed ++ [mkParam "match" (name ++ ".*");
                   mkParam "storage.total_limit_size" fs;
                   mkParam "retry_limit" "300"])%list /\
  keyCountFold "alias" ps = keyCountFold "alias" parsed /\
  GetByKey "alias" ps = GetByKey "alias" parsed.
Proof.
  cbv zeta. intros Hin Hp.
  assert (Hc : ContainsKey "alias" (parseMultiline (Output_Custom o)) = true).
  { unfold ContainsKey. apply existsb_exists. exists p. now split. }
  pose proof (generateCustomOutputParams_eq o fs name) as Heq.
  rewrite Hc in Heq. cbn [negb optional List.app] in Heq.
  split; [exact Heq|]. rewrite Heq. split.
  - rewrite keyCountFold_app. count_literals. lia.
  - rewrite GetByKey_app.
    destruct (GetByKey "alias" (parseMultiline (Output_Custom o))) eqn:G;
      [reflexivity|].
    rewrite (GetByKey_None _ _ G p Hin) in Hp. discriminate Hp.
Qed.

(** X9.  In a custom section the last pair with the key [retry_limit],
    [storage.total_limit_size] or [match] is the operator's, whatever
    the custom text holds, and the first pair with any key the custom
    text holds is the author's. *)
Theorem custom_first_and_last_pair (o : Output) (fs name : string) :
  let parsed := parseMultiline (Output_Custom o) in
  let ps := generateCustomOutputParams o fs name in
  GetByKey "retry_limit" (rev ps) = Some (mkParam "retry_limit" "300") /\
  GetByKey "storage.total_limit_size" (rev ps)
  = Some (mkParam "storage.total_limit_size" fs) /\
  GetByKey "match" (rev ps) = Some (mkParam "match" (name ++ ".*")) /\
  (forall key p, GetByKey key parsed = Some p -> GetByKey key ps = Some p).
Proof.
  cbv zeta. rewrite generateCustomOutputParams_eq.
  repeat split.
  - rewrite app_assoc, rev_app_distr. reflexivity.
  - rewrite app_assoc, rev_app_distr. reflexivity.
  - rewrite app_assoc, rev_app_distr. reflexivity.
  - intros key p G. now rewrite GetByKey_app, G.
Qed.

(** X11.  [resolveValue] returns the empty string for an unset value
    only: an empty literal together with no reference, or with a
    reference that is no secret-key reference. *)
Theorem resolveValue_empty (value : ValueType) (logPipeline : string) :
  resolveValue value logPipeline = EmptyString <->
  ValueType_Value value = EmptyString /\
  match ValueType_ValueFrom value with
  | Some valueFrom => IsSecretKeyRef valueFrom = false
  | None => True
  end.
Proof.
  unfold resolveValue.
  destruct (ValueType_Value value) as [|c v]; cbn [isEmpty negb].
  - destruct (ValueType_ValueFrom value) as [vf|].
    + destruct (IsSecretKeyRef vf); split.
      * discriminate.
      * intros [_ H]. discriminate H.
      * intros _. split; reflexivity.
      * reflexivity.
    + split; [intros _; split; [reflexivity | exact I] | reflexivity].
  - split; [discriminate | intros [H _]; discriminate H].
Qed.

Lemma Join_contains (l : list string) (sep x : string) :
  In x l -> Contains (Join l sep) x.
Proof.
  induction l as [|y l IH]; [intros []|].
  intros [->|Hin].
  - destruct l; [apply Contains_refl|].
    cbn [Join]. apply Contains_app_r, Contains_refl.
  - destruct l as [|z l]; [destruct Hin|].
    change (Join (y :: z :: l) sep) with (y ++ sep ++ Join (z :: l) sep).
    apply Contains_app_l, Contains_app_l, IH, Hin.
Qed.

(** X12.  No label is dropped: the text of every entry of the map, the
    key, an equals sign and the quoted value, is part of the formatted
    string. *)
Theorem concatenateLabels_keeps_every_label
    (labels : list (string * string)) (k v : string) :
  In (k, v) labels ->
  Contains (concatenateLabels labels) (k ++ "=" ++ dquote ++ v ++ dquote).
Proof.
  intros Hin. unfold concatenateLabels. cbv zeta.
  apply Contains_app_l, Contains_app_r, Join_contains.
  eapply Permutation_in; [symmetry; apply sortStrings_Permutation|].
  change (k ++ "=" ++ dquote ++ v ++ dquote) with (formatLabel (k, v)).
  now apply in_map.
Qed.

End Builder.

(** ** The assemblers on concrete pipelines *)

Local Abbreviation exResolve := (resolveValue exampleEnvVarName exampleIsSecretKeyRef).
Local Abbreviation exCustomParams := (generateCustomOutputParams parseMultilineSpec).
Local Abbreviation exCustom :=
  (generateCustomOutput parseMultilineSpec exampleOpen exampleClose).
Local Abbreviation exHTTPParams :=
  (generateHTTPOutputParams exampleEnvVarName exampleIsSecretKeyRef exampleIsDefined).
Local Abbreviation exHTTP :=
  (generateHTTPOutput exampleEnvVarName exampleIsSecretKeyRef exampleIsDefined
     exampleOpen exampleClose).
Local Abbreviation exLokiParams :=
  (generateLokiOutputParams exampleEnvVarName exampleIsSecretKeyRef).
Local Abbreviation exLoki :=
  (generateLokiOutput exampleEnvVarName exampleIsSecretKeyRef exampleOpen exampleClose).
Local Abbreviation exCreate :=
  (createOutputSection exampleEnvVarName exampleIsSecretKeyRef exampleIsDefined
     exampleIsCustomDefined exampleIsHTTPDefined exampleIsLokiDefined
     parseMultilineSpec exampleOpen exampleClose).
Local Abbreviation exRun :=
  (runAssembler exampleEnvVarName exampleIsSecretKeyRef exampleIsDefined
     parseMultilineSpec exampleOpen exampleClose).

(** Scenario C: both lines of the custom text, then the synthesized
    alias and the operator's pairs. *)
Example scenarioC_section :
  exCustomParams scenarioC "1G" "p1"
  = [mkParam "Name" "kafka"; mkParam "Brokers" "broker:9092";
     mkParam "alias" "p1-kafka"; mkParam "match" "p1.*";
     mkParam "storage.total_limit_size" "1G"; mkParam "retry_limit" "300"].
Proof. reflexivity. Qed.

(** The author's and the operator's pairs side by side. *)
Example custom_duplicate_keys :
  exCustomParams customWithOperatorKeys "1G" "p1"
  = [mkParam "name" "stdout"; mkParam "Match" "*"; mkParam "retry_limit" "1";
     mkParam "storage.total_limit_size" "5M";
     mkParam "alias" "p1-stdout"; mkParam "match" "p1.*";
     mkParam "storage.total_limit_size" "1G"; mkParam "retry_limit" "300"].
Proof. reflexivity. Qed.

(** A Loki section: no [retry_limit] among its pairs. *)
Example loki_section :
  exLokiParams exampleLoki "1G" "p1"
  = [mkParam "labelMapPath" "/fluent-bit/etc/loki-labelmap.json";
     mkParam "loglevel" "warn"; mkParam "lineformat" "json";
     mkParam "match" "p1.*"; mkParam "storage.total_limit_size" "1G";
     mkParam "name" "grafana-loki"; mkParam "alias" "p1-grafana-loki";
     mkParam "url" "http://loki:3100";
     mkParam "labels" scenarioBText; mkParam "removeKeys" "stream, time"].
Proof. reflexivity. Qed.

Example scenarioA_section :
  exHTTPParams scenarioA "1G" "p1"
  = [mkParam "name" "http"; mkParam "allow_duplicated_headers" "true";
     mkParam "match" "p1.*"; mkParam "alias" "p1-http";
     mkParam "storage.total_limit_size" "1G"; mkParam "retry_limit" "300";
     mkParam "uri" "https://example/logs";
     mkParam "port" "443"; mkParam "format" "json";
     mkParam "host" "example";
     mkParam "tls" "on"; mkParam "tls.verify" "on"].
Proof. reflexivity. Qed.

(** The formatted entries are sorted, not the keys: [app1] comes before
    [app], because the digit is below the equals sign that follows
    [app]. *)
Example prefixLabels_formatted :
  concatenateLabels prefixLabels
  = "{app1=" ++ dquote ++ "y" ++ dquote ++ ", app=" ++ dquote ++ "x" ++ dquote ++ "}"
  /\ labelFormatterSpec prefixLabels
  = "{app=" ++ dquote ++ "x" ++ dquote ++ ", app1=" ++ dquote ++ "y" ++ dquote ++ "}".
Proof. split; reflexivity. Qed.

(** C8, as stated, fails: on the labels [app] and [app1] the output is
    not the entries sorted by key. *)
Lemma labels_sorted_by_key_counterexample :
  concatenateLabels prefixLabels <> labelFormatterSpec prefixLabels.
Proof. vm_compute. intros H. discriminate H. Qed.

Lemma createOutputSection_dispatch_witness :
  exCreate (examplePipeline allSinks) exampleDefaults = exRun CustomSink allSinks "1G" "p1" /\
  exCreate (examplePipeline httpAndLoki) exampleDefaults
  = exRun HTTPSink httpAndLoki "1G" "p1" /\
  exCreate (examplePipeline lokiOnly) exampleDefaults = exRun LokiSink lokiOnly "1G" "p1" /\
  exCreate (examplePipeline noSink) exampleDefaults = Some EmptyString.
Proof.
  pose proof (fun o => createOutputSection_dispatch exampleEnvVarName exampleIsSecretKeyRef
                         exampleIsDefined exampleIsCustomDefined exampleIsHTTPDefined
                         exampleIsLokiDefined parseMultilineSpec exampleOpen exampleClose
                         (examplePipeline o) exampleDefaults) as H.
  cbv zeta in H.
  split; [|split; [|split]].
  - destruct (H allSinks) as (_ & Hcustom & _). exact (Hcustom eq_refl).
  - destruct (H httpAndLoki) as (_ & _ & Hhttp & _). exact (Hhttp eq_refl eq_refl).
  - destruct (H lokiOnly) as (_ & _ & _ & Hloki & _).
    exact (Hloki eq_refl eq_refl eq_refl).
  - destruct (H noSink) as (_ & _ & _ & _ & Hnone).
    exact (Hnone eq_refl eq_refl eq_refl).
Defined.

Lemma resolveValue_cases_witness :
  exResolve (mkValueType "literal"
               (Some (mkValueFromSource (mkSecretKeyRef "ns" "secret" "host")))) "p1"
  = "literal" /\
  exResolve (secretValue "ns" "secret" "host") "p1" = "${p1_ns_secret_host}" /\
  exResolve unsetValue "p1" = EmptyString.
Proof.
  split; [|split].
  - apply (proj1 (resolveValue_cases exampleEnvVarName exampleIsSecretKeyRef
                    (mkValueType "literal"
                       (Some (mkValueFromSource (mkSecretKeyRef "ns" "secret" "host"))))
                    "p1")).
    discriminate.
  - exact (proj1 (proj2 (resolveValue_cases exampleEnvVarName exampleIsSecretKeyRef
                           (secretValue "ns" "secret" "host") "p1"))
             eq_refl _ eq_refl eq_refl).
  - exact (proj2 (proj2 (resolveValue_cases exampleEnvVarName exampleIsSecretKeyRef
                           unsetValue "p1"))
             eq_refl (or_introl eq_refl)).
Defined.




Lemma loki_url_always_emitted_witness :
  ValueType_Value (LokiOutput_URL lokiNoURL) = EmptyString /\
  ValueType_ValueFrom (LokiOutput_URL lokiNoURL) = None /\
  In (mkParam "url" EmptyString) (exLokiParams lokiNoURL "1G" "p1").
Proof.
  split; [reflexivity|]. split; [reflexivity|].
  destruct (loki_url_always_emitted exampleEnvVarName exampleIsSecretKeyRef
              exampleOpen exampleClose lokiNoURL "1G" "p1") as (_ & _ & _ & Hunset).
  exact (proj1 (Hunset eq_refl eq_refl)).
Defined.

Lemma concatenateLabels_order_independent_witness :
  Permutation scenarioB scenarioB' /\
  concatenateLabels scenarioB = concatenateLabels scenarioB'.
Proof.
  assert (H : Permutation scenarioB scenarioB') by apply perm_swap.
  split; [exact H|]. exact (concatenateLabels_order_independent _ _ H).
Defined.

Lemma concatenateLabels_sorts_formatted_entries_witness :
  NoDup (map fst scenarioB') /\
  concatenateLabels scenarioB' = labelFormatterSpec scenarioB'.
Proof.
  assert (Hnd : NoDup (map fst scenarioB')).
  { repeat constructor; simpl; intros H; repeat destruct H as [H|H];
      try discriminate H; exact H. }
  split; [exact Hnd|].
  apply (proj1 (proj2 (concatenateLabels_sorts_formatted_entries scenarioB')));
    [exact Hnd|].
  intros k1 k2 H1 H2 Hne. simpl in H1, H2.
  destruct H1 as [<-|[<-|[]]]; destruct H2 as [<-|[<-|[]]];
    try reflexivity; exfalso; apply Hne; reflexivity.
Defined.

(** ** The further properties on concrete pipelines *)

Lemma createOutputSection_match_and_buffer_witness :
  exCreate (examplePipeline lokiOnly) exampleDefaults
  = Some (exLoki exampleLoki "1G" "p1") /\
  Contains (exLoki exampleLoki "1G" "p1") (renderLine (mkParam "match" "p1.*")).
Proof.
  split; [reflexivity|].
  exact (proj1 (createOutputSection_match_and_buffer exampleEnvVarName
                  exampleIsSecretKeyRef exampleIsDefined exampleIsCustomDefined
                  exampleIsHTTPDefined exampleIsLokiDefined parseMultilineSpec
                  exampleOpen exampleClose (examplePipeline lokiOnly) exampleDefaults
                  (exLoki exampleLoki "1G" "p1") eq_refl eq_refl)).
Defined.

(** A predicate that holds for an HTTP sink that is not set makes the
    dispatcher fail. *)
Lemma createOutputSection_nil_sink_witness :
  createOutputSection exampleEnvVarName exampleIsSecretKeyRef exampleIsDefined
    exampleIsCustomDefined (fun _ => true) exampleIsLokiDefined
    parseMultilineSpec exampleOpen exampleClose (examplePipeline lokiOnly) exampleDefaults
  = None.
Proof.
  apply (proj2 (createOutputSection_nil_sink exampleEnvVarName exampleIsSecretKeyRef
                  exampleIsDefined exampleIsCustomDefined (fun _ => true)
                  exampleIsLokiDefined parseMultilineSpec exampleOpen exampleClose
                  (examplePipeline lokiOnly) exampleDefaults)).
  split; [reflexivity|]. left. split; reflexivity.
Defined.

Lemma labels_never_empty_selector_witness :
  concatenateLabels [] = "{}" /\
  (In (mkParam "labels" "{}") (exLokiParams lokiNoURL "1G" "p1") -> False).
Proof.
  destruct (labels_never_empty_selector exampleEnvVarName exampleIsSecretKeyRef
              lokiNoURL "1G" "p1") as [Hempty Hnever].
  split; [apply (proj2 (Hempty [])); reflexivity | exact Hnever].
Defined.

Lemma label_value_not_escaped_witness :
  stringLe (formatLabel ("app", "foo")) (formatLabel ("env", "prod")) /\
  concatenateLabels [("app", "foo" ++ dquote ++ ", env=" ++ dquote ++ "prod")]
  = scenarioBText.
Proof.
  assert (H : stringLe (formatLabel ("app", "foo")) (formatLabel ("env", "prod")))
    by reflexivity.
  split; [exact H|].
  exact (label_value_not_escaped "app" "foo" "env" "prod" H).
Defined.

Lemma custom_alias_kept_witness :
  In (mkParam "Alias" "mine") (parseMultilineSpec (Output_Custom customWithAlias)) /\
  exCustomParams customWithAlias "1G" "p1"
  = [mkParam "name" "stdout"; mkParam "Alias" "mine"; mkParam "match" "p1.*";
     mkParam "storage.total_limit_size" "1G"; mkParam "retry_limit" "300"].
Proof.
  assert (H : In (mkParam "Alias" "mine")
                (parseMultilineSpec (Output_Custom customWithAlias)))
    by (right; left; reflexivity).
  split; [exact H|].
  exact (proj1 (custom_alias_kept parseMultilineSpec customWithAlias "1G" "p1"
                  (mkParam "Alias" "mine") H eq_refl)).
Defined.

Lemma custom_first_and_last_pair_witness :
  GetByKey "retry_limit" (parseMultilineSpec (Output_Custom customWithOperatorKeys))
  = Some (mkParam "retry_limit" "1") /\
  GetByKey "retry_limit" (exCustomParams customWithOperatorKeys "1G" "p1")
  = Some (mkParam "retry_limit" "1") /\
  GetByKey "retry_limit" (rev (exCustomParams customWithOperatorKeys "1G" "p1"))
  = Some (mkParam "retry_limit" "300").
Proof.
  destruct (custom_first_and_last_pair parseMultilineSpec customWithOperatorKeys
              "1G" "p1") as (Hlast & _ & _ & Hfirst).
  split; [reflexivity|]. split; [|exact Hlast].
  apply Hfirst. reflexivity.
Defined.

Lemma generateLokiOutput_order_independent_witness :
  Permutation scenarioB' scenarioB /\
  exLoki exampleLoki "1G" "p1" = exLoki exampleLokiSwapped "1G" "p1".
Proof.
  assert (H : Permutation scenarioB' scenarioB) by apply perm_swap.
  split; [exact H|].
  exact (generateLokiOutput_order_independent exampleEnvVarName exampleIsSecretKeyRef
           exampleOpen exampleClose (literalValue "http://loki:3100")
           scenarioB' scenarioB ["stream"; "time"] "1G" "p1" H).
Defined.

Lemma resolveValue_empty_witness :
  exResolve unsetValue "p1" = EmptyString /\
  (exResolve (secretValue "ns" "secret" "host") "p1" = EmptyString -> False).
Proof.
  split.
  - apply (proj2 (resolveValue_empty exampleEnvVarName exampleIsSecretKeyRef
                    unsetValue "p1")).
    split; [reflexivity | exact I].
  - intros H.
    apply (proj1 (resolveValue_empty exampleEnvVarName exampleIsSecretKeyRef
                    (secretValue "ns" "secret" "host") "p1")) in H.
    destruct H as [_ H]. discriminate H.
Defined.

Lemma concatenateLabels_keeps_every_label_witness :
  In ("env", "prod") scenarioB /\
  Contains (concatenateLabels scenarioB) ("env=" ++ dquote ++ "prod" ++ dquote).
Proof.
  assert (H : In ("env", "prod") scenarioB) by (right; left; reflexivity).
  split; [exact H|].
  exact (concatenateLabels_keeps_every_label scenarioB "env" "prod" H).
Defined.
